(** * Ad-Spent-ROI-Prediction: ingestion and cleaning components

    A shallow embedding of [src/components/data_cleaning.py] and
    [src/components/data_ingestion.py].

    The two modules are thin strategy-pattern wrappers around pandas and
    pymongo.  The Python of the repository is embedded line by line; the
    library calls it makes ([DataFrame.dropna], [pd.DataFrame(records)],
    [DataFrame.drop], [MongoClient], [collection.find]) are embedded with the
    behaviour their documentation gives for the arguments used here. *)

From stdpp Require Import base option list strings gmap.
From Stdlib Require Import ZArith.

Local Open Scope string_scope.
Local Open Scope list_scope.

(** ** Python values *)

(** The scalar values that occur as dictionary values, record fields and
    data-frame cells.  [PNaN] is the float not-a-number pandas uses for a
    missing entry.  Neither module computes on cells: all they ask of a
    value is whether it is truthy and whether it is missing, so other
    floats and nested documents are left out. *)
Inductive pyval : Type :=
  | PNone
  | PNaN
  | PBool (b : bool)
  | PInt (z : Z)
  | PStr (s : string).

#[global] Instance pyval_eq_dec : EqDecision pyval.
Proof. solve_decision. Defined.

(** Python truthiness, as used by [all([...])]. *)
Definition truthy (v : pyval) : bool :=
  match v with
  | PNone => false
  | PNaN => true
  | PBool b => b
  | PInt z => negb (Z.eqb z 0)
  | PStr s => negb (String.eqb s "")
  end.

(** Python's builtin [all]. *)
Definition all (vs : list pyval) : bool := forallb truthy vs.

(** [pd.notna] on a scalar: [None] and [NaN] are the missing values. *)
Definition notna (v : pyval) : bool :=
  match v with
  | PNone | PNaN => false
  | _ => true
  end.

(** ** Data frames *)

(** Row labels of a frame's index. *)
Inductive label : Type :=
  | LInt (z : Z)
  | LStr (s : string).

#[global] Instance label_eq_dec : EqDecision label.
Proof. solve_decision. Defined.

(** A data frame as pandas holds it: an index of row labels and an ordered
    sequence of named columns, each a sequence of cells.  [items] gives the
    (label, cells) pairs, as [df.items()] does. *)
Record DataFrame : Type := mkDataFrame {
  index : list label;
  items : list (string * list pyval)
}.

#[global] Instance DataFrame_eq_dec : EqDecision DataFrame.
Proof. solve_decision. Defined.

(** [df.columns]: the column labels. *)
Definition columns (df : DataFrame) : list string := (items df).*1.
Definition column_data (df : DataFrame) : list (list pyval) := (items df).*2.

(** Columns all of length [n]. *)
Definition columns_of_length (n : nat) (cs : list (list pyval)) : Prop :=
  Forall (λ c, length c = n) cs.

(** Every column has one cell per index label. *)
Definition well_formed (df : DataFrame) : Prop :=
  columns_of_length (length (index df)) (column_data df).

#[global] Instance well_formed_dec df : Decision (well_formed df).
Proof. unfold well_formed, columns_of_length. apply _. Defined.

(** The head cell of a column; a column that has run out reads as missing. *)
Definition first_cell (c : list pyval) : pyval := default PNaN (head c).

(** The row view of a frame: each label with its cells, one per column. *)
Fixpoint rows_of (idx : list label) (cs : list (list pyval))
  : list (label * list pyval) :=
  match idx with
  | [] => []
  | l :: idx' => (l, first_cell <$> cs) :: rows_of idx' (tail <$> cs)
  end.

Definition rows (df : DataFrame) : list (label * list pyval) :=
  rows_of (index df) (column_data df).

(** A row has no missing value. *)
Definition complete (r : label * list pyval) : bool := forallb notna r.2.

(** [df.loc[l]]: the cells of the row labelled [l] (of the first such row,
    should the label repeat). *)
Definition loc (df : DataFrame) (l : label) : option (list pyval) :=
  snd <$> head (filter (λ r, r.1 = l) (rows df)).

(** *** [DataFrame.dropna()] with its default arguments
    ([axis=0, how='any', subset=None, inplace=False, ignore_index=False]).

    pandas computes the boolean row mask [notna(df).all(axis=1)] column by
    column and keeps the positions where it is true, in the index and in
    every column alike (a copy of the whole frame when the mask is true
    throughout).  The index is not renumbered. *)

(** [notna(df).all(axis=1)]: start from an all-true mask, one entry per
    index label, and conjoin each column's [notna] vector. *)
Definition row_mask (idx : list label) (cs : list (list pyval)) : list bool :=
  foldr (λ c m, zip_with andb (notna <$> c) m)
        (replicate (length idx) true) cs.

(** Boolean-mask selection [xs[mask]]. *)
Fixpoint select {A : Type} (mask : list bool) (xs : list A) : list A :=
  match mask, xs with
  | b :: mask', x :: xs' =>
      if b then x :: select mask' xs' else select mask' xs'
  | _, _ => []
  end.

Definition dropna (df : DataFrame) : DataFrame :=
  let mask := row_mask (index df) (column_data df) in
  {| index := select mask (index df);
     items := prod_map id (select mask) <$> items df |}.

(** ** The object store

    Python passes data frames by reference.  A store maps references to the
    frames they denote. *)

Abbreviation ref := positive.

(** [self.dropna()] as a method call on the store.  With [inplace=False],
    the default, pandas builds the result as a new object and leaves [self]
    as it was; the call fails only on a dangling reference. *)
Definition dropna_call (self : ref) (h : gmap positive DataFrame)
  : option (ref * gmap positive DataFrame) :=
  df ← h !! self;
  let r := fresh (dom h) in
  Some (r, <[r := dropna df]> h).

(** ** data_cleaning.py *)

Module DropMissingValuesStrategy.

(** [def clean(self, data): return data.dropna()], on frame values.  The
    strategy object has no attributes, so [self] carries nothing. *)
Definition clean (data : DataFrame) : DataFrame := dropna data.

(** The same method on references into the store. *)
Definition clean_call (data : ref) (h : gmap positive DataFrame)
  : option (ref * gmap positive DataFrame) :=
  dropna_call data h.

End DropMissingValuesStrategy.

(** The frame of the concrete scenario: columns [a], [b] and the rows
    [(1, missing)], [(2, 3)] under the default index [0, 1]. *)
Definition scenario : DataFrame :=
  {| index := [LInt 0; LInt 1];
     items := [("a", [PInt 1; PInt 2]); ("b", [PNaN; PInt 3])] |}.

(** ** Exceptions, log lines and external calls *)

(** An instance of a subclass of Python's [Exception]: its class name and
    what [str(e)] gives. *)
Record exn : Type := mkExn {
  exc_class : string;
  exc_str : string
}.

#[global] Instance exn_eq_dec : EqDecision exn.
Proof. solve_decision. Defined.

Definition ValueError (msg : string) : exn :=
  {| exc_class := "ValueError"; exc_str := msg |}.

(** [KeyError(names)]; [str] of it is left as the joined names. *)
Definition KeyError (names : list string) : exn :=
  {| exc_class := "KeyError"; exc_str := String.concat ", " names |}.

(** The specification's taxonomy calls the exception raised for missing
    connection parameters [ConfigurationError]; in the code it is the
    [ValueError] of line 49. *)
Definition ConfigurationError (e : exn) : Prop := exc_class e = "ValueError".

#[global] Instance ConfigurationError_dec e : Decision (ConfigurationError e).
Proof. unfold ConfigurationError. apply _. Defined.

Inductive level : Type := INFO | ERROR.

#[global] Instance level_eq_dec : EqDecision level.
Proof. solve_decision. Defined.

(** What a call makes observable outside the process, in order. *)
Inductive event : Type :=
  | Log (lv : level) (msg : string)     (* logger.info / logger.error *)
  | Connect (uri : pyval)               (* MongoClient(uri) *)
  | GetDatabase (name : pyval)          (* client[database_name] *)
  | GetCollection (name : pyval)        (* database[collection_name] *)
  | Fetch                               (* list(collection.find()) *)
  | BuildFrame.                         (* pd.DataFrame(data) *)

#[global] Instance event_eq_dec : EqDecision event.
Proof. solve_decision. Defined.

(** The calls that reach the document store. *)
Definition store_event (ev : event) : bool :=
  match ev with
  | Connect _ | GetDatabase _ | GetCollection _ | Fetch => true
  | Log _ _ | BuildFrame => false
  end.

(** How a Python call ends. *)
Inductive outcome (A : Type) : Type :=
  | Returned (a : A)
  | Raised (e : exn).
Arguments Returned {A} a.
Arguments Raised {A} e.

(** A computation: the events it emitted and how it ended. *)
Definition M (A : Type) : Type := list event * outcome A.

#[global] Instance M_ret : MRet M := λ A a, ([], Returned a).

#[global] Instance M_bind : MBind M := λ A B f m,
  match m with
  | (t, Returned a) => let '(t', r) := f a in (t ++ t', r)
  | (t, Raised e) => (t, Raised e)
  end.

Definition emit (ev : event) : M unit := ([ev], Returned tt).
Definition raise {A : Type} (e : exn) : M A := ([], Raised e).

(** [try: body except Exception as e: handler(e)] *)
Definition try_except {A : Type} (body : M A) (handler : exn → M A) : M A :=
  match body with
  | (t, Raised e) => let '(t', r) := handler e in (t ++ t', r)
  | (t, Returned a) => (t, Returned a)
  end.

Definition logger_info (msg : string) : M unit := emit (Log INFO msg).
Definition logger_error (msg : string) : M unit := emit (Log ERROR msg).

(** An external call that is attempted (and so observed) and then either
    raises or goes through. *)
Definition attempt (ev : event) (fault : option exn) : M unit :=
  emit ev;; from_option raise (mret tt) fault.

(** ** The pandas calls of the ingestion path *)

(** A record as [collection.find()] yields it: a dict, its fields in
    insertion order. *)
Abbreviation record := (list (string * pyval)).

Fixpoint record_get (k : string) (r : record) : option pyval :=
  match r with
  | [] => None
  | (k', v) :: r' => if decide (k' = k) then Some v else record_get k r'
  end.

(** The column labels [pd.DataFrame] infers from a list of dicts: every key,
    in order of first appearance. *)
Definition add_key (seen : list string) (k : string) : list string :=
  if decide (k ∈ seen) then seen else seen ++ [k].

Definition unique_keys (data : list record) : list string :=
  foldl (λ seen r, foldl add_key seen r.*1) [] data.

(** [RangeIndex(n)]: the labels [0 .. n-1]. *)
Definition RangeIndex (n : nat) : list label :=
  (λ i, LInt (Z.of_nat i)) <$> seq 0 n.

(** [pd.DataFrame(data)] for a list of dicts: one row per record under a
    [RangeIndex], one column per key, [NaN] where a record lacks the key. *)
Definition from_records (data : list record) : DataFrame :=
  {| index := RangeIndex (length data);
     items :=
       (λ k, (k, (λ r, default PNaN (record_get k r)) <$> data))
         <$> unique_keys data |}.

(** ['_id' in df.columns] *)
Definition has_column (name : string) (df : DataFrame) : bool :=
  bool_decide (name ∈ columns df).

(** [df.drop(columns=names, inplace=True)] with the default
    [errors='raise']: a name that labels no column raises [KeyError];
    otherwise every column so labelled goes, the index stays. *)
Definition DataFrame_drop (names : list string) (df : DataFrame)
  : M DataFrame :=
  if forallb (λ n, has_column n df) names then
    mret {| index := index df;
            items := filter (λ c, c.1 ∉ names) (items df) |}
  else raise (KeyError names).

(** ** The world outside the process

    What the document store and the frame constructor do when called:
    each call either raises or goes through, and a fetch that goes through
    yields the records of the collection. *)
Record Env : Type := mkEnv {
  connect_fault : pyval → option exn;
  database_fault : pyval → pyval → option exn;
  collection_fault : pyval → pyval → pyval → option exn;
  find_records : pyval → pyval → pyval → outcome (list record);
  frame_fault : list record → option exn
}.

(** Handles are what they were opened with. *)
Record Client : Type := mkClient { client_uri : pyval }.
Record Database : Type := mkDatabase {
  database_client : Client;
  database_name_of : pyval
}.
Record Collection : Type := mkCollection {
  collection_database : Database;
  collection_name_of : pyval
}.

Section External.
Context (env : Env).

(** [MongoClient(uri)] *)
Definition MongoClient (uri : pyval) : M Client :=
  attempt (Connect uri) (connect_fault env uri);;
  mret (mkClient uri).

(** [client[database_name]] *)
Definition client_getitem (client : Client) (name : pyval) : M Database :=
  attempt (GetDatabase name) (database_fault env (client_uri client) name);;
  mret (mkDatabase client name).

(** [database[collection_name]] *)
Definition database_getitem (database : Database) (name : pyval)
  : M Collection :=
  attempt (GetCollection name)
    (collection_fault env (client_uri (database_client database))
       (database_name_of database) name);;
  mret (mkCollection database name).

(** [list(collection.find())] *)
Definition collection_find (collection : Collection) : M (list record) :=
  let database := collection_database collection in
  emit Fetch;;
  match find_records env (client_uri (database_client database))
          (database_name_of database) (collection_name_of collection) with
  | Returned data => mret data
  | Raised e => raise e
  end.

(** [pd.DataFrame(data)] *)
Definition pd_DataFrame (data : list record) : M DataFrame :=
  attempt BuildFrame (frame_fault env data);;
  mret (from_records data).

End External.

(** ** data_ingestion.py *)

(** [connection_details.get(key)] *)
Definition dict_get (d : gmap string pyval) (key : string) : pyval :=
  default PNone (d !! key).

(** The abstract base class: one method, [ingest]. *)
Record DataIngestionStrategy : Type := mkStrategy {
  ingest : gmap string pyval → M DataFrame
}.

Module MongoDBIngestionStrategy.

Definition missing_details : string :=
  "Missing connection details. Ensure 'uri', 'database', and 'collection' are provided.".

(** Lines 42 to 67: the body of the [try]. *)
Definition ingest_body (env : Env) (connection_details : gmap string pyval)
  : M DataFrame :=
  let uri := dict_get connection_details "uri" in
  let database_name := dict_get connection_details "database" in
  let collection_name := dict_get connection_details "collection" in
  (if negb (all [uri; database_name; collection_name])
   then raise (ValueError missing_details) else mret tt);;
  client ← MongoClient env uri;
  database ← client_getitem env client database_name;
  collection ← database_getitem env database collection_name;
  data ← collection_find env collection;
  df ← pd_DataFrame env data;
  df ← (if has_column "_id" df then DataFrame_drop ["_id"] df else mret df);
  logger_info "Data ingestion from MongoDB completed successfully.";;
  mret df.

(** Lines 68 to 70: the [except Exception as e] clause. *)
Definition ingest_handler (e : exn) : M DataFrame :=
  logger_error ("Error during MongoDB ingestion: " +:+ exc_str e);;
  raise e.

(** [MongoDBIngestionStrategy.ingest] *)
Definition ingest (env : Env) (connection_details : gmap string pyval)
  : M DataFrame :=
  logger_info "Connecting to MongoDB...";;
  try_except (ingest_body env connection_details) ingest_handler.

(** The strategy object, as the context class holds it. *)
Definition strategy (env : Env) : DataIngestionStrategy :=
  mkStrategy (ingest env).

End MongoDBIngestionStrategy.

Module DataIngestor.

(** The context object: one attribute, [_strategy]. *)
Record t : Type := mk { _strategy : DataIngestionStrategy }.

(** [__init__] *)
Definition init (strategy : DataIngestionStrategy) : t :=
  {| _strategy := strategy |}.

(** [set_strategy]: the assignment to [self._strategy] is returned as the
    updated object. *)
Definition set_strategy (self : t) (strategy : DataIngestionStrategy) : M t :=
  logger_info "Switching data ingestion strategy.";;
  mret {| _strategy := strategy |}.

(** [ingest_data] *)
Definition ingest_data (self : t) (connection_details : gmap string pyval)
  : M DataFrame :=
  logger_info "Ingesting data using the current strategy.";;
  ingest (_strategy self) connection_details.

End DataIngestor.

(** ** Situations of the store *)

Section Situations.
Context (env : Env) (connection_details : gmap string pyval).

Let uri := dict_get connection_details "uri".
Let database_name := dict_get connection_details "database".
Let collection_name := dict_get connection_details "collection".

(** The three parameters pass the check of line 48. *)
Definition validated : Prop :=
  all [uri; database_name; collection_name] = true.

(** The store is reachable and its named collection holds [data]: the
    client, both selections and the fetch go through, the fetch yields
    [data], and building the frame from [data] raises nothing. *)
Definition reachable_with (data : list record) : Prop :=
  validated
  ∧ connect_fault env uri = None
  ∧ database_fault env uri database_name = None
  ∧ collection_fault env uri database_name collection_name = None
  ∧ find_records env uri database_name collection_name = Returned data
  ∧ frame_fault env data = None.

(** The connection, selection, fetch or conversion step raises [e], the
    steps before it having gone through. *)
Inductive step_fault (e : exn) : Prop :=
  | fault_connection :
      connect_fault env uri = Some e →
      step_fault e
  | fault_select_database :
      connect_fault env uri = None →
      database_fault env uri database_name = Some e →
      step_fault e
  | fault_select_collection :
      connect_fault env uri = None →
      database_fault env uri database_name = None →
      collection_fault env uri database_name collection_name = Some e →
      step_fault e
  | fault_fetch :
      connect_fault env uri = None →
      database_fault env uri database_name = None →
      collection_fault env uri database_name collection_name = None →
      find_records env uri database_name collection_name = Raised e →
      step_fault e
  | fault_conversion data :
      connect_fault env uri = None →
      database_fault env uri database_name = None →
      collection_fault env uri database_name collection_name = None →
      find_records env uri database_name collection_name = Returned data →
      frame_fault env data = Some e →
      step_fault e.

End Situations.

(** The records of a collection that carry the reserved field [_id]. *)
Definition with_id (data : list record) : list record :=
  filter (λ r, is_Some (record_get "_id" r)) data.

(** ** Sample situations *)

Definition sample_details : gmap string pyval :=
  <["uri" := PStr "mongodb://localhost:27017"]>
    (<["database" := PStr "ads"]> (<["collection" := PStr "spend"]> ∅)).

(** Three records, two of which carry [_id]. *)
Definition sample_records : list record :=
  [ [("_id", PInt 7); ("tv", PInt 230)];
    [("radio", PInt 37)];
    [("tv", PInt 44); ("_id", PInt 9)] ].

(** A store that is up and serves [data] from every collection. *)
Definition serving (data : list record) : Env :=
  {| connect_fault := λ _, None;
     database_fault := λ _ _, None;
     collection_fault := λ _ _ _, None;
     find_records := λ _ _ _, Returned data;
     frame_fault := λ _, None |}.

Definition timed_out : exn :=
  {| exc_class := "ServerSelectionTimeoutError";
     exc_str := "localhost:27017: timed out" |}.

(** A store whose server cannot be reached: the client is built, the
    fetch raises. *)
Definition unreachable : Env :=
  {| connect_fault := λ _, None;
     database_fault := λ _ _, None;
     collection_fault := λ _ _ _, None;
     find_records := λ _ _ _, Raised timed_out;
     frame_fault := λ _, None |}.

(** A strategy that returns the frame [df] whatever it is asked. *)
Definition constant_strategy (df : DataFrame) : DataIngestionStrategy :=
  {| ingest := λ _, mret df |}.

(** Two strategies that end differently on [sample_details]. *)
Definition sample_s1 : DataIngestionStrategy := constant_strategy scenario.
Definition sample_s2 : DataIngestionStrategy :=
  MongoDBIngestionStrategy.strategy (serving sample_records).

(** ** Views used to state what the calls do *)




(** A caller that swaps the strategy of a context several times in a row:
    [for s in strategies: ingestor.set_strategy(s)]. *)
Fixpoint set_strategies (self : DataIngestor.t)
    (strategies : list DataIngestionStrategy) : M DataIngestor.t :=
  match strategies with
  | [] => mret self
  | s :: strategies' =>
      self' ← DataIngestor.set_strategy self s;
      set_strategies self' strategies'
  end.

(** A frame with three rows, one of them incomplete, under string labels. *)
Definition campaigns : DataFrame :=
  {| index := [LStr "q1"; LStr "q2"; LStr "q3"];
     items := [("tv", [PInt 230; PNone; PInt 17]);
               ("sales", [PInt 22; PInt 10; PInt 9])] |}.

(** * Properties *)

(** ** Mask selection *)

Section Select.
Context {A : Type}.
Implicit Types (mask : list bool) (xs ys : list A).

Lemma select_nil_r mask : select mask (@nil A) = [].
Proof. by destruct mask. Qed.

Lemma select_length_eq {B : Type} mask xs (ys : list B) :
  length xs = length ys → length (select mask xs) = length (select mask ys).
Proof.
  revert xs ys; induction mask as [|b mask IH]; intros [|x xs] [|y ys] Hlen;
    simplify_eq/=; try done.
  destruct b; simpl; auto.
Qed.

Lemma select_all_true n xs :
  (length xs ≤ n)%nat → select (replicate n true) xs = xs.
Proof.
  revert xs; induction n as [|n IH]; intros [|x xs] Hlen; simpl in *;
    try done; try lia.
  f_equal. apply IH. lia.
Qed.

Lemma select_fmap (f : A → bool) xs : select (f <$> xs) xs = filter f xs.
Proof.
  induction xs as [|x xs IH]; [done|].
  rewrite fmap_cons; cbn [select].
  rewrite filter_cons, IH. destruct (f x) eqn:Hfx.
  - by rewrite decide_True by done.
  - by rewrite decide_False by (by intros []).
Qed.

Lemma select_sublist mask xs : select mask xs `sublist_of` xs.
Proof.
  revert xs; induction mask as [|b mask IH]; intros [|x xs]; simpl;
    try apply sublist_nil_l.
  destruct b; [by apply sublist_skip | by apply sublist_cons].
Qed.

End Select.

(** ** The row mask against the row view *)

Section RowView.
Implicit Types (idx : list label) (cs : list (list pyval)) (mask : list bool).

Lemma columns_of_length_tail n cs :
  columns_of_length (S n) cs → columns_of_length n (tail <$> cs).
Proof.
  unfold columns_of_length. rewrite Forall_fmap. intros Hcs.
  eapply Forall_impl; [exact Hcs|].
  intros [|x c] Hc; simplify_eq/=; done.
Qed.

Lemma rows_of_length idx cs : length (rows_of idx cs) = length idx.
Proof. revert cs; induction idx; intros cs; simpl; auto. Qed.

Lemma rows_of_labels idx cs : (rows_of idx cs).*1 = idx.
Proof. revert cs; induction idx; intros cs; simpl; f_equal; auto. Qed.

Lemma row_mask_nil cs : columns_of_length 0 cs → row_mask [] cs = [].
Proof.
  unfold row_mask. induction 1 as [|c cs Hc _ IH]; [done|].
  cbn [foldr]. rewrite IH. by destruct c.
Qed.

Lemma row_mask_cons l idx cs :
  columns_of_length (S (length idx)) cs →
  row_mask (l :: idx) cs
  = forallb notna (first_cell <$> cs) :: row_mask idx (tail <$> cs).
Proof.
  unfold row_mask. induction 1 as [|c cs Hc _ IH]; [done|].
  cbn [foldr fmap list_fmap]. rewrite IH. by destruct c.
Qed.

(** The mask pandas computes column by column is the row-wise test. *)
Lemma row_mask_rows idx cs :
  columns_of_length (length idx) cs →
  row_mask idx cs = complete <$> rows_of idx cs.
Proof.
  revert cs; induction idx as [|l idx IH]; intros cs Hcs.
  - by apply row_mask_nil.
  - rewrite row_mask_cons by done. simpl. unfold complete at 1. simpl.
    f_equal. apply IH. by apply columns_of_length_tail.
Qed.

Lemma select_columns_true mask n cs :
  columns_of_length (S n) cs →
  first_cell <$> (select (true :: mask) <$> cs) = first_cell <$> cs
  ∧ tail <$> (select (true :: mask) <$> cs) = select mask <$> (tail <$> cs).
Proof.
  induction 1 as [|c cs Hc _ [IH1 IH2]]; [done|].
  destruct c; simplify_eq/=. by rewrite IH1, IH2.
Qed.

Lemma select_columns_false mask n cs :
  columns_of_length (S n) cs →
  select (false :: mask) <$> cs = select mask <$> (tail <$> cs).
Proof.
  induction 1 as [|c cs Hc _ IH]; [done|].
  destruct c; simplify_eq/=. by rewrite IH.
Qed.

(** Selecting in the index and in every column selects whole rows. *)
Lemma rows_of_select mask idx cs :
  columns_of_length (length idx) cs →
  rows_of (select mask idx) (select mask <$> cs)
  = select mask (rows_of idx cs).
Proof.
  revert idx cs; induction mask as [|b mask IH]; intros [|l idx] cs Hcs;
    try done.
  simpl in Hcs. destruct b.
  - change (select (true :: mask) (l :: idx)) with (l :: select mask idx).
    change (rows_of (l :: idx) cs)
      with ((l, first_cell <$> cs) :: rows_of idx (tail <$> cs)).
    change (rows_of (l :: select mask idx) ?x)
      with ((l, first_cell <$> x) :: rows_of (select mask idx) (tail <$> x)).
    destruct (select_columns_true mask _ _ Hcs) as [-> ->].
    cbn [select]. f_equal. apply IH. by apply columns_of_length_tail.
  - change (select (false :: mask) (l :: idx)) with (select mask idx).
    change (rows_of (l :: idx) cs)
      with ((l, first_cell <$> cs) :: rows_of idx (tail <$> cs)).
    rewrite (select_columns_false mask _ _ Hcs). cbn [select].
    apply IH. by apply columns_of_length_tail.
Qed.

End RowView.

(** ** [dropna] on frames *)

Section Dropna.
Implicit Types (df : DataFrame).

Lemma complete_spec (r : label * list pyval) :
  complete r ↔ ∀ v, v ∈ r.2 → notna v = true.
Proof.
  unfold complete. rewrite forallb_True, Forall_forall.
  apply forall_proper; intros v. by rewrite Is_true_true.
Qed.

Lemma dropna_column_names df : columns (dropna df) = columns df.
Proof.
  unfold columns, dropna; simpl.
  rewrite <- list_fmap_compose. by apply list_fmap_ext; intros ? [??].
Qed.

Lemma dropna_column_data df :
  column_data (dropna df)
  = select (row_mask (index df) (column_data df)) <$> column_data df.
Proof.
  unfold column_data, dropna; simpl.
  rewrite <- !list_fmap_compose. by apply list_fmap_ext; intros ? [??].
Qed.

Lemma dropna_well_formed df : well_formed df → well_formed (dropna df).
Proof.
  unfold well_formed, columns_of_length. rewrite dropna_column_data.
  rewrite Forall_fmap. intros Hwf. eapply Forall_impl; [exact Hwf|].
  intros c Hc; simpl. by apply select_length_eq.
Qed.

Lemma dropna_rows df :
  well_formed df → rows (dropna df) = filter complete (rows df).
Proof.
  intros Hwf. unfold rows at 1. rewrite dropna_column_data.
  cbn [dropna index]. rewrite rows_of_select by done.
  rewrite row_mask_rows by done. apply select_fmap.
Qed.

Lemma dropna_index df :
  well_formed df → index (dropna df) = (filter complete (rows df)).*1.
Proof.
  intros Hwf. rewrite <- dropna_rows by done. unfold rows.
  by rewrite rows_of_labels.
Qed.

(** After [dropna] the mask is true throughout. *)
Lemma dropna_row_mask df :
  well_formed df →
  row_mask (index (dropna df)) (column_data (dropna df))
  = replicate (length (index (dropna df))) true.
Proof.
  intros Hwf. rewrite row_mask_rows by by apply dropna_well_formed.
  fold (rows (dropna df)).
  rewrite <- (rows_of_length (index (dropna df)) (column_data (dropna df))).
  fold (rows (dropna df)). rewrite dropna_rows by done.
  induction (rows df) as [|r rs IH]; [done|].
  rewrite filter_cons. case_decide as Hr; [|done].
  rewrite fmap_cons. cbn [length replicate]. rewrite IH.
  f_equal. by apply Is_true_true.
Qed.

Lemma dropna_idempotent df : well_formed df → dropna (dropna df) = dropna df.
Proof.
  intros Hwf. pose proof (dropna_well_formed _ Hwf) as Hwf'.
  unfold dropna at 1. rewrite dropna_row_mask by done.
  destruct (dropna df) as [idx cols] eqn:Hdf. cbn [index items] in *.
  f_equal; [by apply select_all_true|].
  unfold well_formed, columns_of_length, column_data in Hwf'.
  cbn [index items] in Hwf'. rewrite Forall_fmap in Hwf'.
  clear Hdf. induction Hwf' as [|[n c] cols Hc _ IH]; [done|].
  rewrite fmap_cons, IH. do 2 f_equal. unfold prod_map; simpl. f_equal.
  apply select_all_true. simpl in Hc. lia.
Qed.

Lemma head_filter_filter {A : Type} (P Q : A → Prop)
    `{!∀ x, Decision (P x), !∀ x, Decision (Q x)} (xs : list A) (x : A) :
  head (filter P xs) = Some x → Q x → head (filter P (filter Q xs)) = Some x.
Proof.
  intros Hhd HQ. induction xs as [|y xs IH]; [done|].
  rewrite filter_cons in Hhd. rewrite filter_cons.
  destruct (decide (P y)) as [HP|HP].
  - simpl in Hhd; simplify_eq. rewrite decide_True by done.
    rewrite filter_cons. by rewrite decide_True by done.
  - destruct (decide (Q y)); [|by auto].
    rewrite filter_cons, decide_False by done. by auto.
Qed.

End Dropna.

(** ** DropMissingValuesStrategy *)

Import DropMissingValuesStrategy.

(** C2.  For every dataset [D], [clean D] keeps the column labels of [D];
    its rows are the rows of [D] without a missing value, in the order they
    have in [D], and every row of [D] with a missing value in some column is
    gone; when every row of [D] has a missing value the result has no rows
    (and still the columns of [D]). *)
Theorem clean_drops_rows_with_missing (D : DataFrame) :
  well_formed D →
  columns (clean D) = columns D
  ∧ well_formed (clean D)
  ∧ rows (clean D) = filter complete (rows D)
  ∧ (∀ r, r ∈ rows (clean D) ↔ r ∈ rows D ∧ ∀ v, v ∈ r.2 → notna v = true)
  ∧ rows (clean D) `sublist_of` rows D
  ∧ (Forall (λ r, ∃ v, v ∈ r.2 ∧ notna v = false) (rows D) →
     rows (clean D) = [] ∧ index (clean D) = []).
Proof.
  intros Hwf. unfold clean.
  split; [apply dropna_column_names|].
  split; [by apply dropna_well_formed|].
  split; [by apply dropna_rows|].
  split; [|split].
  - intros r. rewrite dropna_rows, list_elem_of_filter by done.
    rewrite complete_spec. tauto.
  - rewrite dropna_rows by done. apply sublist_filter.
  - intros Hall. rewrite dropna_index, dropna_rows by done.
    assert (filter complete (rows D) = []) as ->; [|done].
    induction Hall as [|r rs (v & Hv & Hna) _ IH]; [done|].
    rewrite filter_cons, decide_False; [done|].
    rewrite complete_spec. intros Hr. specialize (Hr v Hv). congruence.
Qed.

Lemma clean_drops_rows_with_missing_witness :
  well_formed scenario
  ∧ rows (clean scenario) = filter complete (rows scenario).
Proof.
  split; [repeat constructor|].
  apply (clean_drops_rows_with_missing scenario). repeat constructor.
Defined.

(** C3.  Cleaning is idempotent: [clean (clean D) = clean D]. *)
Theorem clean_idempotent (D : DataFrame) :
  well_formed D → clean (clean D) = clean D.
Proof. apply dropna_idempotent. Qed.

Lemma clean_idempotent_witness :
  well_formed scenario ∧ clean (clean scenario) = clean scenario.
Proof.
  split; [repeat constructor|].
  apply (clean_idempotent scenario). repeat constructor.
Defined.

(** C8.  On the frame with columns [a], [b] and rows [(1, missing)],
    [(2, 3)], [clean] returns the frame whose only row is [(2, 3)]. *)
Theorem clean_scenario :
  clean scenario
  = {| index := [LInt 1]; items := [("a", [PInt 2]); ("b", [PInt 3])] |}
  ∧ rows scenario = [(LInt 0, [PInt 1; PNaN]); (LInt 1, [PInt 2; PInt 3])]
  ∧ rows (clean scenario) = [(LInt 1, [PInt 2; PInt 3])].
Proof. by repeat split. Qed.

(** C10.  The rows [clean] keeps carry the index labels they have in [D]:
    the index of the result is the labels of the kept rows, a subsequence
    of the index of [D], and a complete row found in [D] under a label is
    found in the result under the same label.  Labels are not renumbered:
    in the scenario the kept row is still labelled [1], at position [0]. *)
Theorem clean_keeps_index_labels (D : DataFrame) :
  well_formed D →
  index (clean D) = (filter complete (rows D)).*1
  ∧ index (clean D) `sublist_of` index D
  ∧ (∀ l vs, loc D l = Some vs → forallb notna vs = true →
       loc (clean D) l = Some vs)
  ∧ index (clean scenario) = [LInt 1]
  ∧ index scenario !! 1%nat = Some (LInt 1)
  ∧ index (clean scenario) !! 0%nat = Some (LInt 1).
Proof.
  intros Hwf. unfold clean.
  split; [by apply dropna_index|].
  split; [apply select_sublist|].
  split; [|done].
  intros l vs Hloc Hvs. unfold loc in *. rewrite dropna_rows by done.
  destruct (head (filter _ (rows D))) as [[l' vs']|] eqn:Hhd; simplify_eq/=.
  rewrite (head_filter_filter _ _ _ _ Hhd); [done|].
  unfold complete; simpl. by rewrite Hvs.
Qed.

Lemma clean_keeps_index_labels_witness :
  well_formed scenario
  ∧ loc scenario (LInt 1) = Some [PInt 2; PInt 3]
  ∧ loc (clean scenario) (LInt 1) = Some [PInt 2; PInt 3].
Proof.
  split; [repeat constructor|]. split; [reflexivity|].
  apply (clean_keeps_index_labels scenario); [repeat constructor|..];
    reflexivity.
Defined.

(** C9.  [clean] is pure and stateless.  Called on a reference [data] to
    the frame [D], it returns a reference to a new object holding
    [clean D]; [data] still denotes [D] and no other object of the store
    has changed.  The frame it returns depends on [D] alone: whatever the
    store holds from earlier calls, and whichever reference carries [D],
    the result is the same frame. *)
Theorem clean_is_pure (h : gmap positive DataFrame) (data : ref)
    (D : DataFrame) :
  h !! data = Some D →
  ∃ r h',
    clean_call data h = Some (r, h')
    ∧ h !! r = None
    ∧ r ≠ data
    ∧ h' !! data = Some D
    ∧ h' !! r = Some (clean D)
    ∧ (∀ p, p ≠ r → h' !! p = h !! p)
    ∧ (∀ (h2 : gmap positive DataFrame) (data2 : ref),
         h2 !! data2 = Some D →
         ∃ r2 h2', clean_call data2 h2 = Some (r2, h2')
                   ∧ h2' !! r2 = h' !! r).
Proof.
  intros HD. unfold clean_call, dropna_call. rewrite HD; simpl.
  set (r := fresh (dom h)).
  assert (h !! r = None) as Hr.
  { apply not_elem_of_dom. apply is_fresh. }
  assert (r ≠ data) as Hne by (intros ->; congruence).
  exists r, (<[r := dropna D]> h). repeat split; try done.
  - by rewrite lookup_insert_ne.
  - by rewrite lookup_insert_eq.
  - intros p Hp. by rewrite lookup_insert_ne.
  - intros h2 data2 HD2. rewrite HD2; simpl.
    eexists _, _. split; [done|]. by rewrite !lookup_insert_eq.
Qed.

Lemma clean_is_pure_witness :
  ({[ 1%positive := scenario ]} : gmap positive DataFrame) !! 1%positive
    = Some scenario
  ∧ ∃ r h',
      clean_call 1%positive {[ 1%positive := scenario ]} = Some (r, h')
      ∧ h' !! 1%positive = Some scenario
      ∧ h' !! r = Some (clean scenario).
Proof.
  split; [reflexivity|].
  destruct (clean_is_pure {[ 1%positive := scenario ]} 1%positive scenario)
    as (r & h' & Hcall & _ & _ & Hin & Hout & _); [reflexivity|].
  exists r, h'. repeat split; assumption.
Defined.

(** ** MongoDBIngestionStrategy *)

Lemma filter_Forall_id {A : Type} (P : A → Prop) `{!∀ x, Decision (P x)}
    (xs : list A) :
  Forall P xs → filter P xs = xs.
Proof.
  induction 1 as [|x xs Hx _ IH]; [done|].
  by rewrite filter_cons, decide_True, IH.
Qed.

Section Ingest.
Import MongoDBIngestionStrategy.
Context (env : Env).
Implicit Types (cd : gmap string pyval) (data : list record).

Lemma from_records_index_length data :
  length (index (from_records data)) = length data.
Proof. unfold from_records, RangeIndex; simpl. by rewrite length_fmap, length_seq. Qed.

Lemma from_records_well_formed data : well_formed (from_records data).
Proof.
  unfold well_formed, columns_of_length, column_data.
  rewrite from_records_index_length. unfold from_records; simpl.
  rewrite <- list_fmap_compose, Forall_fmap. apply Forall_forall.
  intros k _; simpl. by rewrite length_fmap.
Qed.

(** The frame the ingestion returns for the records [data]. *)
Lemma ingest_reachable cd data :
  reachable_with env cd data →
  ∃ df,
    ingest env cd
    = ([Log INFO "Connecting to MongoDB...";
        Connect (dict_get cd "uri");
        GetDatabase (dict_get cd "database");
        GetCollection (dict_get cd "collection");
        Fetch; BuildFrame;
        Log INFO "Data ingestion from MongoDB completed successfully."],
       Returned df)
    ∧ index df = index (from_records data)
    ∧ items df = filter (λ c, c.1 ≠ "_id") (items (from_records data)).
Proof.
  intros (Hval & Hc & Hd & Hcoll & Hfind & Hframe).
  unfold validated in Hval.
  unfold ingest, ingest_body. rewrite Hval.
  unfold MongoClient, client_getitem, database_getitem, collection_find,
    pd_DataFrame; cbn [client_uri database_client database_name_of
    collection_database collection_name_of].
  rewrite Hc. simpl. rewrite Hd. simpl. rewrite Hcoll. simpl.
  rewrite Hfind. simpl. rewrite Hframe. simpl.
  destruct (has_column "_id" (from_records data)) eqn:Hid.
  - unfold DataFrame_drop. cbn [forallb]. rewrite Hid. simpl.
    eexists. split; [reflexivity|]. split; [done|]. simpl.
    apply list_filter_iff. intros c. by rewrite list_elem_of_singleton.
  - simpl. eexists. split; [reflexivity|]. split; [done|].
    symmetry. apply filter_Forall_id, Forall_forall. intros c Hc' Heq.
    apply bool_decide_eq_false in Hid. apply Hid.
    apply list_elem_of_fmap. by exists c.
Qed.

End Ingest.

(** What the sample store yields: three rows under the labels [0, 1, 2],
    the columns [tv] and [radio] in order of first appearance, [NaN] where
    a record lacks the field, and no [_id]. *)
Example ingest_sample_records :
  (MongoDBIngestionStrategy.ingest (serving sample_records) sample_details).2
  = Returned
      {| index := [LInt 0; LInt 1; LInt 2];
         items := [("tv", [PInt 230; PNaN; PInt 44]);
                   ("radio", [PNaN; PInt 37; PNaN])] |}.
Proof. reflexivity. Qed.

(** Records without any field still count as rows. *)
Example ingest_fieldless_records :
  (MongoDBIngestionStrategy.ingest (serving [[]; []]) sample_details).2
  = Returned {| index := [LInt 0; LInt 1]; items := [] |}.
Proof. reflexivity. Qed.

(** An empty [uri] is refused before the client is built. *)
Example ingest_empty_uri :
  (MongoDBIngestionStrategy.ingest (serving sample_records)
     (<["uri" := PStr ""]> sample_details)).1
  = [Log INFO "Connecting to MongoDB...";
     Log ERROR ("Error during MongoDB ingestion: "
                +:+ MongoDBIngestionStrategy.missing_details)].
Proof. reflexivity. Qed.

(** C4.  From a reachable store whose collection holds [N] records, [M] of
    them with the field [_id], [ingest] returns a frame of exactly [N] rows
    that has no column [_id], whatever [M] is. *)
Theorem ingest_returns_every_record_without_id
    (env : Env) (cd : gmap string pyval) (data : list record) (N M : nat) :
  reachable_with env cd data →
  length data = N →
  length (with_id data) = M →
  ∃ tr df,
    MongoDBIngestionStrategy.ingest env cd = (tr, Returned df)
    ∧ (0 ≤ M ≤ N)%nat
    ∧ length (index df) = N
    ∧ length (rows df) = N
    ∧ ("_id" ∉ columns df)
    ∧ well_formed df.
Proof.
  intros Hreach HN HM.
  destruct (ingest_reachable env cd data Hreach) as (df & Hrun & Hidx & Hcols).
  eexists; exists df. split; [exact Hrun|].
  assert (length (index df) = N) as Hlen.
  { by rewrite Hidx, from_records_index_length. }
  split; [|split; [done|split; [|split]]].
  - subst N M. unfold with_id. split; [lia | apply length_filter].
  - unfold rows. by rewrite rows_of_length.
  - unfold columns. rewrite Hcols. intros Hin.
    apply list_elem_of_fmap in Hin as (c & Hc & Hin).
    apply list_elem_of_filter in Hin as [Hne _]. by apply Hne.
  - pose proof (from_records_well_formed data) as Hwf.
    unfold well_formed, columns_of_length, column_data in *.
    rewrite Hidx, Hcols. rewrite Forall_fmap in *.
    rewrite Forall_forall in *. intros c Hc.
    apply list_elem_of_filter in Hc as [_ Hc]. by apply Hwf.
Qed.

Lemma ingest_returns_every_record_without_id_witness :
  reachable_with (serving sample_records) sample_details sample_records
  ∧ length sample_records = 3%nat
  ∧ length (with_id sample_records) = 2%nat
  ∧ ∃ tr df,
      MongoDBIngestionStrategy.ingest (serving sample_records) sample_details
      = (tr, Returned df)
      ∧ length (rows df) = 3%nat
      ∧ ("_id" ∉ columns df).
Proof.
  assert (reachable_with (serving sample_records) sample_details
            sample_records) as Hreach by (repeat split; reflexivity).
  split; [exact Hreach|]. split; [reflexivity|]. split; [reflexivity|].
  destruct (ingest_returns_every_record_without_id
              (serving sample_records) sample_details sample_records 3 2
              Hreach eq_refl eq_refl)
    as (tr & df & Hrun & _ & _ & Hrows & Hid & _).
  exists tr, df. repeat split; assumption.
Defined.

(** C7.  From a reachable store whose collection is empty, [ingest]
    returns a frame with zero rows. *)
Theorem ingest_empty_collection (env : Env) (cd : gmap string pyval) :
  reachable_with env cd [] →
  ∃ tr df,
    MongoDBIngestionStrategy.ingest env cd = (tr, Returned df)
    ∧ rows df = []
    ∧ length (index df) = 0%nat
    ∧ df = {| index := []; items := [] |}.
Proof.
  intros Hreach.
  destruct (ingest_reachable env cd [] Hreach) as (df & Hrun & Hidx & Hcols).
  eexists; exists df. split; [exact Hrun|].
  destruct df as [idx cols]; simpl in *; subst. by repeat split.
Qed.

Lemma ingest_empty_collection_witness :
  reachable_with (serving []) sample_details []
  ∧ ∃ tr df,
      MongoDBIngestionStrategy.ingest (serving []) sample_details
      = (tr, Returned df)
      ∧ rows df = [].
Proof.
  assert (reachable_with (serving []) sample_details []) as Hreach
    by (repeat split; reflexivity).
  split; [exact Hreach|].
  destruct (ingest_empty_collection (serving []) sample_details Hreach)
    as (tr & df & Hrun & Hrows & _).
  exists tr, df. split; assumption.
Defined.

(** Events told apart by their constructors: settles [NoDup] and
    non-membership goals over explicit traces. *)
Ltac distinct_events :=
  rewrite ?NoDup_cons, ?elem_of_cons, ?elem_of_nil;
  intuition (try discriminate; try apply NoDup_nil_2).

(** C1.  When one of the keys [uri], [database], [collection] is absent
    from the connection details, or present with an empty (falsy) value,
    [ingest] raises the configuration error and nothing reaches the store:
    the only events are the two log lines, and no client is constructed. *)
Theorem ingest_rejects_missing_details
    (env : Env) (cd : gmap string pyval) (k : string) :
  k ∈ ["uri"; "database"; "collection"] →
  cd !! k = None ∨ (∃ v, cd !! k = Some v ∧ truthy v = false) →
  ∃ tr e,
    MongoDBIngestionStrategy.ingest env cd = (tr, Raised e)
    ∧ ConfigurationError e
    ∧ e = ValueError MongoDBIngestionStrategy.missing_details
    ∧ tr = [Log INFO "Connecting to MongoDB...";
            Log ERROR ("Error during MongoDB ingestion: " +:+ exc_str e)]
    ∧ Forall (λ ev, store_event ev = false) tr
    ∧ (∀ uri, Connect uri ∉ tr).
Proof.
  intros Hk Hcd.
  assert (truthy (dict_get cd k) = false) as Hfalsy.
  { unfold dict_get. destruct Hcd as [->|(v & -> & Hv)]; done. }
  assert (all [dict_get cd "uri"; dict_get cd "database";
               dict_get cd "collection"] = false) as Hall.
  { unfold all. cbn [forallb].
    rewrite !elem_of_cons, elem_of_nil in Hk.
    destruct Hk as [->|[->|[->|[]]]]; rewrite Hfalsy;
      by rewrite ?andb_false_r. }
  unfold MongoDBIngestionStrategy.ingest, MongoDBIngestionStrategy.ingest_body.
  rewrite Hall. simpl.
  eexists _, _. split; [reflexivity|].
  split; [reflexivity|]. split; [reflexivity|]. split; [reflexivity|].
  split; [by repeat constructor|].
  intros uri. distinct_events.
Qed.

Lemma ingest_rejects_missing_details_witness :
  "database" ∈ ["uri"; "database"; "collection"]
  ∧ (delete "database" sample_details !! "database" = None
     ∨ ∃ v, delete "database" sample_details !! "database" = Some v
            ∧ truthy v = false)
  ∧ ∃ tr e,
      MongoDBIngestionStrategy.ingest (serving sample_records)
        (delete "database" sample_details) = (tr, Raised e)
      ∧ ConfigurationError e
      ∧ (∀ uri, Connect uri ∉ tr).
Proof.
  assert ("database" ∈ ["uri"; "database"; "collection"]) as Hk
    by (right; left).
  assert (delete "database" sample_details !! "database" = None
          ∨ ∃ v, delete "database" sample_details !! "database" = Some v
                 ∧ truthy v = false) as Hcd by (left; reflexivity).
  split; [exact Hk|]. split; [exact Hcd|].
  destruct (ingest_rejects_missing_details (serving sample_records)
              (delete "database" sample_details) "database" Hk Hcd)
    as (tr & e & Hrun & Hconf & _ & _ & _ & Hconn).
  exists tr, e. repeat split; assumption.
Defined.

(** C6.  When the connection, a selection, the fetch or the conversion
    raises [e], [ingest] ends by raising that same [e] and returns no
    frame; the last thing it does before is log [e] at error level; and it
    makes no call twice. *)
Theorem ingest_resignals_fault
    (env : Env) (cd : gmap string pyval) (e : exn) :
  validated cd →
  step_fault env cd e →
  ∃ tr,
    MongoDBIngestionStrategy.ingest env cd = (tr, Raised e)
    ∧ last tr
      = Some (Log ERROR ("Error during MongoDB ingestion: " +:+ exc_str e))
    ∧ NoDup tr
    ∧ Log INFO "Data ingestion from MongoDB completed successfully." ∉ tr.
Proof.
  intros Hval Hfault. unfold validated in Hval.
  unfold MongoDBIngestionStrategy.ingest, MongoDBIngestionStrategy.ingest_body.
  rewrite Hval.
  unfold MongoClient, client_getitem, database_getitem, collection_find,
    pd_DataFrame.
  destruct Hfault; simpl;
    repeat match goal with
           | H : _ = _ |- _ => rewrite H; clear H; simpl
           end;
    (eexists; split; [reflexivity|]; split; [reflexivity|]; split;
     distinct_events).
Qed.

Lemma ingest_resignals_fault_witness :
  validated sample_details
  ∧ step_fault unreachable sample_details timed_out
  ∧ ∃ tr,
      MongoDBIngestionStrategy.ingest unreachable sample_details
      = (tr, Raised timed_out)
      ∧ last tr
        = Some (Log ERROR ("Error during MongoDB ingestion: "
                           +:+ exc_str timed_out)).
Proof.
  assert (validated sample_details) as Hval by reflexivity.
  assert (step_fault unreachable sample_details timed_out) as Hfault
    by (apply fault_fetch; reflexivity).
  split; [exact Hval|]. split; [exact Hfault|].
  destruct (ingest_resignals_fault unreachable sample_details timed_out
              Hval Hfault) as (tr & Hrun & Hlast & _).
  exists tr. split; assumption.
Defined.

(** ** DataIngestor *)

(** C5.  After [set_strategy self s2] on a context holding [s1], the next
    [ingest_data] runs [s2]'s [ingest] on the connection details, once,
    after the two log lines, and ends as it ends; [s1] does not occur in
    the outcome.  When the two strategies end differently on these details,
    the call ends as [s2] does and not as [s1] does. *)
Theorem set_strategy_switches
    (self : DataIngestor.t) (s1 s2 : DataIngestionStrategy)
    (cd : gmap string pyval) :
  DataIngestor._strategy self = s1 →
  let swapped :=
    self' ← DataIngestor.set_strategy self s2;
    DataIngestor.ingest_data self' cd in
  (∃ self', (DataIngestor.set_strategy self s2).2 = Returned self'
            ∧ DataIngestor._strategy self' = s2)
  ∧ swapped
    = ([Log INFO "Switching data ingestion strategy.";
        Log INFO "Ingesting data using the current strategy."]
         ++ (ingest s2 cd).1,
       (ingest s2 cd).2)
  ∧ ((ingest s1 cd).2 ≠ (ingest s2 cd).2 →
     swapped.2 = (ingest s2 cd).2 ∧ swapped.2 ≠ (ingest s1 cd).2).
Proof.
  intros Hs1 swapped.
  assert (swapped
          = ([Log INFO "Switching data ingestion strategy.";
              Log INFO "Ingesting data using the current strategy."]
               ++ (ingest s2 cd).1,
             (ingest s2 cd).2)) as Hrun.
  { unfold swapped, DataIngestor.set_strategy, DataIngestor.ingest_data.
    simpl. by destruct (ingest s2 cd). }
  split; [by eexists|]. split; [exact Hrun|].
  intros Hdiff. rewrite Hrun; simpl. split; [done|congruence].
Qed.

Lemma set_strategy_switches_witness :
  DataIngestor._strategy (DataIngestor.init sample_s1) = sample_s1
  ∧ (ingest sample_s1 sample_details).2 ≠ (ingest sample_s2 sample_details).2
  ∧ (self' ← DataIngestor.set_strategy (DataIngestor.init sample_s1) sample_s2;
     DataIngestor.ingest_data self' sample_details).2
    = (ingest sample_s2 sample_details).2.
Proof.
  pose (s1 := sample_s1). pose (s2 := sample_s2).
  assert ((ingest s1 sample_details).2 ≠ (ingest s2 sample_details).2)
    as Hdiff by (vm_compute; discriminate).
  split; [reflexivity|]. split; [exact Hdiff|].
  apply (set_strategy_switches (DataIngestor.init s1) s1 s2 sample_details
           eq_refl).
  exact Hdiff.
Defined.

(** * Further properties *)

(** ** Cleaning *)

Section CleaningMore.
Import DropMissingValuesStrategy.
Implicit Types (D : DataFrame) (idx : list label) (cs : list (list pyval)).

(** Every cell of every column lies in some row. *)
Lemma cell_in_some_row idx cs c v :
  columns_of_length (length idx) cs →
  c ∈ cs → v ∈ c → ∃ r, r ∈ rows_of idx cs ∧ v ∈ r.2.
Proof.
  revert cs c; induction idx as [|l idx IH]; intros cs c Hcs Hc Hv.
  - unfold columns_of_length in Hcs. rewrite Forall_forall in Hcs.
    apply Hcs in Hc. destruct c; [by apply elem_of_nil in Hv | done].
  - pose proof Hcs as Hlen. unfold columns_of_length in Hlen.
    rewrite Forall_forall in Hlen. specialize (Hlen c Hc).
    destruct c as [|x c]; [done|]. simpl.
    apply elem_of_cons in Hv as [->|Hv].
    + exists (l, first_cell <$> cs). split; [left|].
      simpl. apply list_elem_of_fmap. by exists (x :: c).
    + destruct (IH (tail <$> cs) c) as (r & Hr & Hvr); [| |done|].
      * by apply columns_of_length_tail.
      * apply list_elem_of_fmap. by exists (x :: c).
      * exists r. split; [by right | done].
Qed.

Lemma all_complete_mask idx cs :
  columns_of_length (length idx) cs →
  Forall complete (rows_of idx cs) →
  row_mask idx cs = replicate (length idx) true.
Proof.
  intros Hcs Hall. rewrite row_mask_rows by done.
  rewrite <- (rows_of_length idx cs).
  induction Hall as [|r rs Hr _ IH]; [done|].
  rewrite fmap_cons. cbn [length replicate]. rewrite IH.
  f_equal. by apply Is_true_true.
Qed.

Lemma select_all_items n (its : list (string * list pyval)) :
  Forall (λ c, length c.2 = n) its →
  prod_map id (select (replicate n true)) <$> its = its.
Proof.
  induction 1 as [|[name c] its Hc _ IH]; [done|].
  rewrite fmap_cons, IH. f_equal. unfold prod_map; simpl. f_equal.
  apply select_all_true. simpl in Hc. lia.
Qed.

(** Under unique labels, the row found under a label is the only row
    carrying it. *)
Lemma unique_label_row (rs : list (label * list pyval)) l r0 :
  NoDup rs.*1 →
  head (filter (λ r, r.1 = l) rs) = Some r0 →
  ∀ r, r ∈ rs → r.1 = l → r = r0.
Proof.
  induction rs as [|r1 rs IH]; [done|].
  rewrite fmap_cons, NoDup_cons. intros [Hr1 Hnd].
  rewrite filter_cons. intros Hhd r Hr Hl.
  apply elem_of_cons in Hr. destruct (decide (r1.1 = l)) as [Hl1|Hl1].
  - simpl in Hhd; simplify_eq. destruct Hr as [->|Hr]; [done|].
    exfalso. apply Hr1. rewrite <- Hl. apply list_elem_of_fmap. by exists r.
  - destruct Hr as [->|Hr]; [done|]. by apply IH.
Qed.

End CleaningMore.

(** X1.  [clean] leaves a frame as it is exactly when none of its rows has
    a missing value; in particular a frame without columns, or without
    rows, comes back unchanged. *)
Theorem clean_fixpoint (D : DataFrame) :
  well_formed D →
  (DropMissingValuesStrategy.clean D = D ↔ Forall complete (rows D))
  ∧ (items D = [] → DropMissingValuesStrategy.clean D = D)
  ∧ (index D = [] → DropMissingValuesStrategy.clean D = D).
Proof.
  intros Hwf. unfold DropMissingValuesStrategy.clean.
  assert (Forall complete (rows D) → dropna D = D) as Hfix.
  { intros Hall. unfold dropna.
    rewrite (all_complete_mask _ _ Hwf Hall).
    destruct D as [idx its]; cbn [index items] in *. f_equal.
    - by apply select_all_true.
    - apply select_all_items. unfold well_formed, columns_of_length,
        column_data in Hwf. cbn [index items] in Hwf.
      by rewrite Forall_fmap in Hwf. }
  split; [split; [|done]|split].
  - intros Heq. apply Forall_forall. intros r Hr.
    rewrite <- Heq, dropna_rows in Hr by done.
    by apply list_elem_of_filter in Hr as [? _].
  - intros Hits. apply Hfix. unfold rows, column_data. rewrite Hits.
    simpl. generalize (index D). by induction l; constructor.
  - intros Hidx. apply Hfix. unfold rows. by rewrite Hidx.
Qed.

Lemma clean_fixpoint_witness :
  well_formed (DropMissingValuesStrategy.clean scenario)
  ∧ (DropMissingValuesStrategy.clean (DropMissingValuesStrategy.clean scenario)
     = DropMissingValuesStrategy.clean scenario
     ↔ Forall complete (rows (DropMissingValuesStrategy.clean scenario))).
Proof.
  split; [repeat constructor|].
  apply (clean_fixpoint (DropMissingValuesStrategy.clean scenario)).
  repeat constructor.
Defined.

(** X2.  After [clean] no column holds a missing value: every cell of
    every column of the result is neither [None] nor [NaN]. *)
Theorem clean_leaves_no_missing_cell (D : DataFrame) :
  well_formed D →
  ∀ name c v,
    (name, c) ∈ items (DropMissingValuesStrategy.clean D) →
    v ∈ c → notna v = true ∧ v ≠ PNone ∧ v ≠ PNaN.
Proof.
  intros Hwf name c v Hc Hv. unfold DropMissingValuesStrategy.clean in *.
  assert (notna v = true) as Hna.
  { destruct (cell_in_some_row (index (dropna D)) (column_data (dropna D))
                c v) as (r & Hr & Hvr); [by apply dropna_well_formed| |done|].
    - unfold column_data. apply list_elem_of_fmap. by exists (name, c).
    - fold (rows (dropna D)) in Hr. rewrite dropna_rows in Hr by done.
      apply list_elem_of_filter in Hr as [Hcomp _].
      by apply (proj1 (complete_spec r) Hcomp). }
  split; [done|]. by split; intros ->.
Qed.

Lemma clean_leaves_no_missing_cell_witness :
  well_formed campaigns
  ∧ ("tv", [PInt 230; PInt 17])
      ∈ items (DropMissingValuesStrategy.clean campaigns)
  ∧ PInt 17 ∈ [PInt 230; PInt 17]
  ∧ notna (PInt 17) = true ∧ PInt 17 ≠ PNone ∧ PInt 17 ≠ PNaN.
Proof.
  assert (("tv", [PInt 230; PInt 17])
            ∈ items (DropMissingValuesStrategy.clean campaigns)) as Hc
    by (vm_compute; left).
  assert (PInt 17 ∈ [PInt 230; PInt 17]) as Hv by (right; left).
  split; [repeat constructor|]. split; [exact Hc|]. split; [exact Hv|].
  apply (clean_leaves_no_missing_cell campaigns
           ltac:(repeat constructor) _ _ _ Hc Hv).
Defined.

(** X3.  In a frame with unique labels, a row with a missing value is gone
    after [clean]: its label is no longer in the index and [loc] finds
    nothing under it; the labels that remain are still unique. *)
Theorem clean_forgets_incomplete_rows (D : DataFrame) (l : label)
    (vs : list pyval) :
  well_formed D →
  NoDup (index D) →
  loc D l = Some vs →
  forallb notna vs = false →
  (l ∉ index (DropMissingValuesStrategy.clean D))
  ∧ loc (DropMissingValuesStrategy.clean D) l = None
  ∧ NoDup (index (DropMissingValuesStrategy.clean D)).
Proof.
  intros Hwf Hnd Hloc Hvs. unfold DropMissingValuesStrategy.clean.
  assert (l ∉ index (dropna D)) as Hout.
  { rewrite dropna_index by done. intros Hin.
    apply list_elem_of_fmap in Hin as (r & -> & Hr).
    apply list_elem_of_filter in Hr as [Hcomp Hr].
    unfold loc in Hloc.
    destruct (head (filter _ (rows D))) as [r0|] eqn:Hhd; simplify_eq/=.
    assert (r = r0) as ->.
    { eapply unique_label_row; [|exact Hhd|exact Hr|done].
      unfold rows. by rewrite rows_of_labels. }
    unfold complete in Hcomp. by rewrite Hvs in Hcomp. }
  split; [exact Hout|]. split.
  - unfold loc.
    destruct (head (filter _ (rows (dropna D)))) as [r|] eqn:Hhd; [|done].
    exfalso. apply Hout. apply head_Some in Hhd as [rest Hrest].
    assert (r ∈ filter (λ r, r.1 = l) (rows (dropna D))) as Hin
      by (rewrite Hrest; left).
    apply list_elem_of_filter in Hin as [<- Hr].
    rewrite <- (rows_of_labels (index (dropna D)) (column_data (dropna D))).
    apply list_elem_of_fmap. by exists r.
  - eapply sublist_NoDup; [exact Hnd|]. apply select_sublist.
Qed.

Lemma clean_forgets_incomplete_rows_witness :
  well_formed campaigns
  ∧ NoDup (index campaigns)
  ∧ loc campaigns (LStr "q2") = Some [PNone; PInt 10]
  ∧ forallb notna [PNone; PInt 10] = false
  ∧ loc (DropMissingValuesStrategy.clean campaigns) (LStr "q2") = None.
Proof.
  assert (NoDup (index campaigns)) as Hnd
    by compute_done.
  split; [repeat constructor|]. split; [exact Hnd|].
  split; [reflexivity|]. split; [reflexivity|].
  apply (clean_forgets_incomplete_rows campaigns (LStr "q2")
           [PNone; PInt 10] ltac:(repeat constructor) Hnd eq_refl eq_refl).
Defined.

(** ** Ingestion: every way a call can go *)

(** Runs [ingest] through the validation and each external call in turn,
    splitting on how the call ends; the equations are left in the
    context. *)
Ltac ingest_step :=
  match goal with
  | |- context [all ?vs] => destruct (all vs) eqn:?
  | |- context [connect_fault ?e ?u] => destruct (connect_fault e u) eqn:?
  | |- context [database_fault ?e ?u ?d] =>
      destruct (database_fault e u d) eqn:?
  | |- context [collection_fault ?e ?u ?d ?c] =>
      destruct (collection_fault e u d c) eqn:?
  | |- context [find_records ?e ?u ?d ?c] =>
      destruct (find_records e u d c) eqn:?
  | |- context [frame_fault ?e ?x] => destruct (frame_fault e x) eqn:?
  | |- context [has_column ?n ?df] => destruct (has_column n df) eqn:?
  end; simpl.

Ltac ingest_cases :=
  unfold MongoDBIngestionStrategy.ingest,
    MongoDBIngestionStrategy.ingest_body, MongoClient, client_getitem,
    database_getitem, collection_find, pd_DataFrame, DataFrame_drop;
  cbv zeta; repeat ingest_step.



(** X6.  Every outcome of [ingest] has one of three causes.  It returns a
    frame only from a store that served some records [data], and the frame
    then has one row per record under the labels [0 .. N-1] and no [_id]
    column.  It raises either the [ValueError] of the validation, the
    details being incomplete, or, the details being complete, the very
    exception a store or conversion call raised; it raises nothing of its
    own besides, and no [KeyError] from dropping [_id]. *)
Theorem ingest_outcome_causes (env : Env) (cd : gmap string pyval) :
  match (MongoDBIngestionStrategy.ingest env cd).2 with
  | Returned df =>
      ∃ data, reachable_with env cd data
              ∧ index df = RangeIndex (length data)
              ∧ ("_id" ∉ columns df)
  | Raised e =>
      (¬ validated cd
       ∧ e = ValueError MongoDBIngestionStrategy.missing_details)
      ∨ (validated cd ∧ step_fault env cd e)
  end.
Proof.
  unfold validated. ingest_cases.
  all: try (right; split; [done|]).
  all: try (left; split; [by intros ?|done]).
  all: try by econstructor; eassumption.
  - eexists. split; [by repeat split|]. split; [done|]. unfold columns; simpl.
    intros Hin. apply list_elem_of_fmap in Hin as (c & Hc & Hin).
    apply list_elem_of_filter in Hin as [Hne _]. apply Hne.
    rewrite Hc. by left.
  - eexists. split; [by repeat split|]. split; [done|].
    match goal with H : has_column _ _ = false |- _ =>
      by apply bool_decide_eq_false in H end.
Qed.

(** ** The frame built from the records *)

Section Records.
Implicit Types (data : list record) (r : record) (k : string)
  (seen keys : list string).









End Records.

(** ** Ingestion: what the frame holds *)

Section Ingested.
Context (env : Env).
Implicit Types (cd : gmap string pyval) (data : list record).






End Ingested.





(** ** Ingestion followed by cleaning *)



(** ** The context under repeated swaps *)

Lemma set_strategies_run (self : DataIngestor.t)
    (strategies : list DataIngestionStrategy) :
  set_strategies self strategies
  = (replicate (length strategies)
       (Log INFO "Switching data ingestion strategy."),
     Returned (DataIngestor.mk
                 (default (DataIngestor._strategy self) (last strategies)))).
Proof.
  revert self; induction strategies as [|s ss IH]; intros self.
  - by destruct self.
  - cbn [set_strategies]. unfold DataIngestor.set_strategy. simpl.
    rewrite IH; simpl. do 3 f_equal. rewrite last_cons.
    by destruct (last ss).
Qed.

(** X10.  However often the strategy of a context is swapped, the swaps
    only log, one line each, and [ingest_data] then delegates to the
    strategy set last (to the constructor's when there was no swap): it
    ends as that strategy's [ingest] ends, an exception passing through
    unchanged, and no strategy set earlier is run. *)
Theorem last_strategy_set_is_used
    (self : DataIngestor.t) (strategies : list DataIngestionStrategy)
    (cd : gmap string pyval) :
  let run :=
    self' ← set_strategies self strategies;
    DataIngestor.ingest_data self' cd in
  let active := default (DataIngestor._strategy self) (last strategies) in
  run
  = (replicate (length strategies)
       (Log INFO "Switching data ingestion strategy.")
     ++ Log INFO "Ingesting data using the current strategy."
     :: (ingest active cd).1,
     (ingest active cd).2).
Proof.
  intros run active; subst run active. rewrite set_strategies_run.
  unfold DataIngestor.ingest_data; simpl.
  by destruct (ingest _ cd) as [tr out].
Qed.

(** ** What [ingest] reads of its argument *)

(** X11.  [ingest] reads the keys [uri], [database] and [collection] of
    the connection details and nothing else: two mappings that agree on
    these three keys, whatever other keys they hold, give the same run. *)
Theorem ingest_reads_three_keys
    (env : Env) (cd cd' : gmap string pyval) :
  (∀ k, k ∈ ["uri"; "database"; "collection"] → cd !! k = cd' !! k) →
  MongoDBIngestionStrategy.ingest env cd
  = MongoDBIngestionStrategy.ingest env cd'.
Proof.
  intros Hagree.
  assert (∀ k, k ∈ ["uri"; "database"; "collection"] →
               dict_get cd k = dict_get cd' k) as Hget.
  { intros k Hk. unfold dict_get. by rewrite (Hagree k Hk). }
  unfold MongoDBIngestionStrategy.ingest,
    MongoDBIngestionStrategy.ingest_body.
  rewrite (Hget "uri"), (Hget "database"), (Hget "collection");
    [done|rewrite !elem_of_cons; auto..].
Qed.

Lemma ingest_reads_three_keys_witness :
  (∀ k, k ∈ ["uri"; "database"; "collection"] →
        sample_details !! k = <["timeout" := PInt 30]> sample_details !! k)
  ∧ MongoDBIngestionStrategy.ingest (serving sample_records) sample_details
    = MongoDBIngestionStrategy.ingest (serving sample_records)
        (<["timeout" := PInt 30]> sample_details).
Proof.
  assert (∀ k, k ∈ ["uri"; "database"; "collection"] →
               sample_details !! k
               = <["timeout" := PInt 30]> sample_details !! k) as Hagree.
  { intros k Hk. rewrite !elem_of_cons, elem_of_nil in Hk.
    destruct Hk as [->|[->|[->|[]]]]; reflexivity. }
  split; [exact Hagree|].
  apply (ingest_reads_three_keys (serving sample_records) sample_details
           (<["timeout" := PInt 30]> sample_details) Hagree).
Defined.

(** ** Cleaning by reference, twice *)

(** X12.  Cleaning the result of a cleaning allocates a third object that
    holds the same frame as the second; the frame passed in first is still
    what it was, and no other object of the store has changed. *)
Theorem clean_call_twice (h : gmap positive DataFrame) (data : ref)
    (D : DataFrame) :
  well_formed D →
  h !! data = Some D →
  ∃ r1 h1 r2 h2,
    DropMissingValuesStrategy.clean_call data h = Some (r1, h1)
    ∧ DropMissingValuesStrategy.clean_call r1 h1 = Some (r2, h2)
    ∧ r1 ≠ data ∧ r2 ≠ data ∧ r2 ≠ r1
    ∧ h2 !! data = Some D
    ∧ h2 !! r1 = Some (DropMissingValuesStrategy.clean D)
    ∧ h2 !! r2 = Some (DropMissingValuesStrategy.clean D)
    ∧ (∀ p, p ≠ r1 → p ≠ r2 → h2 !! p = h !! p).
Proof.
  intros Hwf HD.
  unfold DropMissingValuesStrategy.clean_call, dropna_call,
    DropMissingValuesStrategy.clean.
  rewrite HD; simpl.
  set (r1 := fresh (dom h)). set (h1 := <[r1 := dropna D]> h).
  assert (h !! r1 = None) as Hr1 by apply not_elem_of_dom, is_fresh.
  assert (r1 ≠ data) as Hne1 by (intros ->; congruence).
  assert (h1 !! r1 = Some (dropna D)) as Hh1 by apply lookup_insert_eq.
  set (r2 := fresh (dom h1)).
  assert (h1 !! r2 = None) as Hr2 by apply not_elem_of_dom, is_fresh.
  assert (r2 ≠ r1) as Hne21 by (intros Heq; rewrite Heq in Hr2; congruence).
  assert (r2 ≠ data) as Hne2.
  { intros Heq. rewrite Heq in Hr2. unfold h1 in Hr2.
    rewrite lookup_insert_ne in Hr2 by done. congruence. }
  exists r1, h1, r2, (<[r2 := dropna D]> h1).
  split; [done|]. split.
  { rewrite Hh1; simpl. by rewrite dropna_idempotent. }
  repeat split; try done.
  - unfold h1. by rewrite !lookup_insert_ne.
  - by rewrite lookup_insert_ne.
  - by rewrite lookup_insert_eq.
  - intros p Hp1 Hp2. unfold h1. by rewrite !lookup_insert_ne.
Qed.

Lemma clean_call_twice_witness :
  well_formed scenario
  ∧ ({[ 1%positive := scenario ]} : gmap positive DataFrame) !! 1%positive
    = Some scenario
  ∧ ∃ r1 h1 r2 h2,
      DropMissingValuesStrategy.clean_call 1%positive
        {[ 1%positive := scenario ]} = Some (r1, h1)
      ∧ DropMissingValuesStrategy.clean_call r1 h1 = Some (r2, h2)
      ∧ h2 !! r2 = h2 !! r1.
Proof.
  split; [repeat constructor|]. split; [reflexivity|].
  destruct (clean_call_twice {[ 1%positive := scenario ]} 1%positive
              scenario ltac:(repeat constructor) eq_refl)
    as (r1 & h1 & r2 & h2 & Hc1 & Hc2 & _ & _ & _ & _ & H1 & H2 & _).
  exists r1, h1, r2, h2. split; [exact Hc1|]. split; [exact Hc2|].
  by rewrite H1, H2.
Defined.
